(** * PostManager: the post operations of the Hashnode SDK

    A shallow embedding of [src/managers/posts/post.manager.ts].  Every
    method of [PostManager] is an [async] function that awaits one call of
    the inherited [makeRequest] and then reads one or two properties of the
    decoded response.  The embedding keeps that shape: a method is a small
    program in the constructs an async body is written with (return,
    throw, await, try/catch), run against an arbitrary executor and an
    arbitrary world. *)

From Stdlib Require Import String List Bool Floats.
From ExtLib Require Import Structures.Monad.
Import ListNotations.
Import MonadNotation.

Local Open Scope string_scope.
Local Open Scope list_scope.
Local Open Scope monad_scope.

Set Warnings "-register-all".

(** ** JavaScript values *)

(** The values that travel through the manager: method arguments, the
    variables object and the decoded response.  They are plain data, as
    JSON decoding and object literals yield it: an object has own data
    properties only, no accessor and no prototype of its own making.
    Numbers are IEEE binary64 floats, as in JavaScript.  An object is the
    list of its own properties in insertion order (the order is observable
    once the variables are serialised); an object holds a key at most
    once. *)
Inductive JsVal : Type :=
| JUndefined
| JNull
| JBool (b : bool)
| JNum (n : float)
| JStr (s : string)
| JArr (items : list JsVal)
| JObj (props : list (string * JsVal)).

(** The own property [key] of a property list. *)
Fixpoint ownProperty (props : list (string * JsVal)) (key : string) : option JsVal :=
  match props with
  | [] => None
  | (k, v) :: rest => if String.eqb k key then Some v else ownProperty rest key
  end.

(** What a JavaScript program can throw, and a promise can reject with. *)
Inductive Exn : Type :=
| PropertyAccessError (base : JsVal) (key : string)
    (* the TypeError of reading [key] of [base], [base] null or undefined *)
| ErrorObject (name message : string)
    (* any other Error instance *)
| ThrownValue (v : JsVal).

(** [v.key] on plain data, for the keys the manager reads.  Reading a
    property of [null] or [undefined] throws; reading a key an object does
    not own gives [undefined], and so does reading one of these keys on a
    primitive or an array (none of them names a built-in property).  A
    read that runs an accessor, which could throw anything, needs a value
    that is not plain data and is outside these values. *)
Definition readProperty (v : JsVal) (key : string) : Exn + JsVal :=
  match v with
  | JUndefined | JNull => inl (PropertyAccessError v key)
  | JObj props =>
      match ownProperty props key with
      | Some x => inr x
      | None => inr JUndefined
      end
  | _ => inr JUndefined
  end.

(** [v.k1.k2...]: property reads one after the other, left to right. *)
Fixpoint readPath (v : JsVal) (path : list string) : Exn + JsVal :=
  match path with
  | [] => inr v
  | key :: rest =>
      match readProperty v key with
      | inl e => inl e
      | inr x => readPath x rest
      end
  end.

(** [null] and [undefined], the two values without properties. *)
Definition isNullish (v : JsVal) : bool :=
  match v with
  | JUndefined | JNull => true
  | _ => false
  end.

(** The state of a promise once nothing more can happen to it. *)
Inductive Outcome (A : Type) : Type :=
| Resolved (a : A)
| Rejected (e : Exn)
| Pending.

Arguments Resolved {A} a.
Arguments Rejected {A} e.
Arguments Pending {A}.

Definition outcomeOf {A : Type} (r : Exn + A) : Outcome A :=
  match r with
  | inl e => Rejected e
  | inr a => Resolved a
  end.

(** ** The operation documents *)

(** The twenty-one constants imported from [./post.queries].  The manager
    only hands them to the executor, so their type and their text are
    parameters of the development. *)
Class PostQueries (Document : Type) : Type := {
  ADD_COMMENT_MUTATION : Document;
  ADD_POST_TO_SERIES_MUTATION : Document;
  ADD_REPLY_MUTATION : Document;
  GET_DRAFT_POST_QUERY : Document;
  GET_FEED_POST : Document;
  GET_POST_COMMENTERS : Document;
  GET_POST_COMMENTS : Document;
  GET_POST_LIKERS : Document;
  GET_POST_PUBLICATION_QUERY : Document;
  GET_POST_QUERY : Document;
  GET_SCHEDULED_POST_QUERY : Document;
  LIKE_COMMENT_MUTATION : Document;
  LIKE_POST_MUTATION : Document;
  LIKE_REPLY_MUTATION : Document;
  PUBLISH_POST_MUTATION : Document;
  REMOVE_COMMENT_MUTATION : Document;
  REMOVE_POST_MUTATION : Document;
  REMOVE_REPLY_MUTATION : Document;
  UPDATE_COMMENT_MUTATION : Document;
  UPDATE_POST_MUTATION : Document;
  UPDATE_REPLY_MUTATION : Document
}.

(** ** Requests and asynchronous programs *)

(** The three arguments of one [makeRequest] call. *)
Record Request (Document : Type) : Type := mkRequest {
  operationName : string;
  document : Document;
  variables : JsVal
}.

Arguments mkRequest {Document} _ _ _.
Arguments operationName {Document} _.
Arguments document {Document} _.
Arguments variables {Document} _.

(** The body of an [async] function: it returns, throws, awaits a call of
    the executor and goes on with the value the call resolved with, or
    runs a block under a [catch] handler and goes on with the value of the
    block or of the handler.  The methods of PostManager use no [try];
    the construct is what a body that caught or wrapped a failure would be
    written with. *)
Inductive Async (Document A : Type) : Type :=
| Return (a : A)
| Throw (e : Exn)
| Await (r : Request Document) (k : JsVal -> Async Document A)
| TryCatch (body : Async Document JsVal) (handler : Exn -> Async Document JsVal)
    (k : JsVal -> Async Document A).

Arguments Return {Document A} a.
Arguments Throw {Document A} e.
Arguments Await {Document A} r k.
Arguments TryCatch {Document A} body handler k.

Fixpoint bindAsync {Document A B : Type}
    (p : Async Document A) (f : A -> Async Document B) : Async Document B :=
  match p with
  | Return a => f a
  | Throw e => Throw e
  | Await r k => Await r (fun v => bindAsync (k v) f)
  | TryCatch body handler k => TryCatch body handler (fun v => bindAsync (k v) f)
  end.

#[export] Instance Monad_Async {Document : Type} : Monad (Async Document) := {
  ret := fun _ a => Return a;
  bind := fun _ _ p f => bindAsync p f
}.

(** [await this.makeRequest(name, doc, vars)]. *)
Definition makeRequest {Document : Type}
    (name : string) (doc : Document) (vars : JsVal) : Async Document JsVal :=
  Await (mkRequest name doc vars) Return.

(** A property read inside a method body: the TypeError is thrown there. *)
Definition get {Document : Type} (v : JsVal) (key : string) : Async Document JsVal :=
  match readProperty v key with
  | inl e => Throw e
  | inr x => Return x
  end.

(** ** The generated GraphQL types *)

(** The argument types declared in [generated/gqlQueryTypes]: sort enums,
    filters and mutation input records.  The manager never looks inside
    them; a value of any of these types is a JavaScript value. *)
Definition PostCommentSortBy : Type := JsVal.
Definition PostCommenterSortBy : Type := JsVal.
Definition PostLikerFilter : Type := JsVal.
Definition FeedFilter : Type := JsVal.
Definition MutationInput : Type := JsVal.

(** ** The methods of PostManager *)

Section PostManager.

Context {Document : Type} {queries : PostQueries Document}.

Definition getPost (postId : string) : Async Document JsVal :=
  res <- makeRequest "getPost" GET_POST_QUERY
           (JObj [("postId", JStr postId)]) ;;
  get res "post".

Definition getPostPublication (postId : string) : Async Document JsVal :=
  res <- makeRequest "getPostPublication" GET_POST_PUBLICATION_QUERY
           (JObj [("postId", JStr postId)]) ;;
  post <- get res "post" ;;
  get post "publication".

Definition getPostComments (postId : string) (first : float) (after : string)
    (sortBy : PostCommentSortBy) : Async Document JsVal :=
  res <- makeRequest "getPostComments" GET_POST_COMMENTS
           (JObj [("postId", JStr postId); ("first", JNum first);
                  ("after", JStr after); ("sortBy", sortBy)]) ;;
  post <- get res "post" ;;
  get post "comments".

Definition getPostCommenters (postId : string) (first : float) (after : string)
    (sortBy : PostCommenterSortBy) : Async Document JsVal :=
  res <- makeRequest "getPostCommenters" GET_POST_COMMENTERS
           (JObj [("postId", JStr postId); ("first", JNum first);
                  ("after", JStr after); ("sortBy", sortBy)]) ;;
  post <- get res "post" ;;
  get post "commenters".

Definition getPostLikers (postId : string) (first : float) (after : string)
    (filter : PostLikerFilter) : Async Document JsVal :=
  res <- makeRequest "getPostLikers" GET_POST_LIKERS
           (JObj [("postId", JStr postId); ("first", JNum first);
                  ("after", JStr after); ("filter", filter)]) ;;
  post <- get res "post" ;;
  get post "likedBy".

Definition getDraftPostQuery (draftID : string) : Async Document JsVal :=
  res <- makeRequest "getDraftPostQuery" GET_DRAFT_POST_QUERY
           (JObj [("id", JStr draftID)]) ;;
  get res "draft".

Definition getScheduledPost (scheduledPostID : string) : Async Document JsVal :=
  res <- makeRequest "getScheduledPost" GET_SCHEDULED_POST_QUERY
           (JObj [("id", JStr scheduledPostID)]) ;;
  get res "post".

Definition getFeedPosts (first : float) (after : string) (filter : FeedFilter)
    : Async Document JsVal :=
  res <- makeRequest "getFeedPosts" GET_FEED_POST
           (JObj [("first", JNum first); ("after", JStr after);
                  ("filter", filter)]) ;;
  get res "feedPost".

(* =======================MUTATIONS======================= *)

Definition publishPost (input : MutationInput) : Async Document JsVal :=
  res <- makeRequest "publishPost" PUBLISH_POST_MUTATION
           (JObj [("input", input)]) ;;
  publishedpost <- get res "publishedpost" ;;
  get publishedpost "post".

Definition addPostToSeries (input : MutationInput) : Async Document JsVal :=
  res <- makeRequest "addPostToSeries" ADD_POST_TO_SERIES_MUTATION
           (JObj [("input", input)]) ;;
  get res "series".

Definition updatePost (input : MutationInput) : Async Document JsVal :=
  res <- makeRequest "updatePost" UPDATE_POST_MUTATION
           (JObj [("input", input)]) ;;
  get res "updatedPost".

Definition removePost (input : MutationInput) : Async Document JsVal :=
  res <- makeRequest "removePost" REMOVE_POST_MUTATION
           (JObj [("input", input)]) ;;
  get res "removedPost".

Definition likePost (input : MutationInput) : Async Document JsVal :=
  res <- makeRequest "likePost" LIKE_POST_MUTATION
           (JObj [("input", input)]) ;;
  get res "likedPost".

Definition likeComment (input : MutationInput) : Async Document JsVal :=
  res <- makeRequest "likeComment" LIKE_COMMENT_MUTATION
           (JObj [("input", input)]) ;;
  likedComment <- get res "likedComment" ;;
  get likedComment "comment".

Definition likeReply (input : MutationInput) : Async Document JsVal :=
  res <- makeRequest "likeReply" LIKE_REPLY_MUTATION
           (JObj [("input", input)]) ;;
  likedReply <- get res "likedReply" ;;
  get likedReply "reply".

Definition addComment (input : MutationInput) : Async Document JsVal :=
  res <- makeRequest "addComment" ADD_COMMENT_MUTATION
           (JObj [("input", input)]) ;;
  addedComment <- get res "addedComment" ;;
  get addedComment "comment".

Definition updateComment (input : MutationInput) : Async Document JsVal :=
  res <- makeRequest "updateComment" UPDATE_COMMENT_MUTATION
           (JObj [("input", input)]) ;;
  updatedComment <- get res "updatedComment" ;;
  get updatedComment "comment".

Definition removeComment (input : MutationInput) : Async Document JsVal :=
  res <- makeRequest "removeComment" REMOVE_COMMENT_MUTATION
           (JObj [("input", input)]) ;;
  removedComment <- get res "removedComment" ;;
  get removedComment "comment".

Definition addReply (input : MutationInput) : Async Document JsVal :=
  res <- makeRequest "addReply" ADD_REPLY_MUTATION
           (JObj [("input", input)]) ;;
  addedReply <- get res "addedReply" ;;
  get addedReply "reply".

Definition updateReply (input : MutationInput) : Async Document JsVal :=
  res <- makeRequest "updateReply" UPDATE_REPLY_MUTATION
           (JObj [("input", input)]) ;;
  updatedReply <- get res "updatedReply" ;;
  get updatedReply "reply".

Definition removeReply (input : MutationInput) : Async Document JsVal :=
  res <- makeRequest "removeReply" REMOVE_REPLY_MUTATION
           (JObj [("input", input)]) ;;
  removedReply <- get res "removedReply" ;;
  get removedReply "reply".

End PostManager.

(** ** The method table *)

(** The eight query methods and the thirteen mutation methods of the class,
    in declaration order. *)
Inductive Query : Type :=
| GetPost | GetPostPublication | GetPostComments | GetPostCommenters
| GetPostLikers | GetDraftPostQuery | GetScheduledPost | GetFeedPosts.

Inductive Mutation : Type :=
| PublishPost | AddPostToSeries | UpdatePost | RemovePost | LikePost
| LikeComment | LikeReply | AddComment | UpdateComment | RemoveComment
| AddReply | UpdateReply | RemoveReply.

Inductive Method : Type :=
| QueryMethod (q : Query)
| MutationMethod (m : Mutation).

Definition allQueries : list Query :=
  [GetPost; GetPostPublication; GetPostComments; GetPostCommenters;
   GetPostLikers; GetDraftPostQuery; GetScheduledPost; GetFeedPosts].

Definition allMutations : list Mutation :=
  [PublishPost; AddPostToSeries; UpdatePost; RemovePost; LikePost;
   LikeComment; LikeReply; AddComment; UpdateComment; RemoveComment;
   AddReply; UpdateReply; RemoveReply].

Definition allMethods : list Method :=
  map QueryMethod allQueries ++ map MutationMethod allMutations.

(** The identifier each method is declared under. *)
Definition queryName (q : Query) : string :=
  match q with
  | GetPost => "getPost"
  | GetPostPublication => "getPostPublication"
  | GetPostComments => "getPostComments"
  | GetPostCommenters => "getPostCommenters"
  | GetPostLikers => "getPostLikers"
  | GetDraftPostQuery => "getDraftPostQuery"
  | GetScheduledPost => "getScheduledPost"
  | GetFeedPosts => "getFeedPosts"
  end.

Definition mutationName (m : Mutation) : string :=
  match m with
  | PublishPost => "publishPost"
  | AddPostToSeries => "addPostToSeries"
  | UpdatePost => "updatePost"
  | RemovePost => "removePost"
  | LikePost => "likePost"
  | LikeComment => "likeComment"
  | LikeReply => "likeReply"
  | AddComment => "addComment"
  | UpdateComment => "updateComment"
  | RemoveComment => "removeComment"
  | AddReply => "addReply"
  | UpdateReply => "updateReply"
  | RemoveReply => "removeReply"
  end.

Definition methodName (m : Method) : string :=
  match m with
  | QueryMethod q => queryName q
  | MutationMethod m => mutationName m
  end.

(** The property path of each method's [return] statement. *)
Definition designatedPath (m : Method) : list string :=
  match m with
  | QueryMethod GetPost => ["post"]
  | QueryMethod GetPostPublication => ["post"; "publication"]
  | QueryMethod GetPostComments => ["post"; "comments"]
  | QueryMethod GetPostCommenters => ["post"; "commenters"]
  | QueryMethod GetPostLikers => ["post"; "likedBy"]
  | QueryMethod GetDraftPostQuery => ["draft"]
  | QueryMethod GetScheduledPost => ["post"]
  | QueryMethod GetFeedPosts => ["feedPost"]
  | MutationMethod PublishPost => ["publishedpost"; "post"]
  | MutationMethod AddPostToSeries => ["series"]
  | MutationMethod UpdatePost => ["updatedPost"]
  | MutationMethod RemovePost => ["removedPost"]
  | MutationMethod LikePost => ["likedPost"]
  | MutationMethod LikeComment => ["likedComment"; "comment"]
  | MutationMethod LikeReply => ["likedReply"; "reply"]
  | MutationMethod AddComment => ["addedComment"; "comment"]
  | MutationMethod UpdateComment => ["updatedComment"; "comment"]
  | MutationMethod RemoveComment => ["removedComment"; "comment"]
  | MutationMethod AddReply => ["addedReply"; "reply"]
  | MutationMethod UpdateReply => ["updatedReply"; "reply"]
  | MutationMethod RemoveReply => ["removedReply"; "reply"]
  end.

(** The methods that read a property of a property. *)
Definition unwrapsNested (m : Method) : bool :=
  match designatedPath m with
  | [_; _] => true
  | _ => false
  end.

(** One call of a method: the method and its arguments. *)
Inductive Invocation : Type :=
| CallGetPost (postId : string)
| CallGetPostPublication (postId : string)
| CallGetPostComments (postId : string) (first : float) (after : string)
    (sortBy : PostCommentSortBy)
| CallGetPostCommenters (postId : string) (first : float) (after : string)
    (sortBy : PostCommenterSortBy)
| CallGetPostLikers (postId : string) (first : float) (after : string)
    (filter : PostLikerFilter)
| CallGetDraftPostQuery (draftID : string)
| CallGetScheduledPost (scheduledPostID : string)
| CallGetFeedPosts (first : float) (after : string) (filter : FeedFilter)
| CallMutation (m : Mutation) (input : MutationInput).

Definition methodOf (inv : Invocation) : Method :=
  match inv with
  | CallGetPost _ => QueryMethod GetPost
  | CallGetPostPublication _ => QueryMethod GetPostPublication
  | CallGetPostComments _ _ _ _ => QueryMethod GetPostComments
  | CallGetPostCommenters _ _ _ _ => QueryMethod GetPostCommenters
  | CallGetPostLikers _ _ _ _ => QueryMethod GetPostLikers
  | CallGetDraftPostQuery _ => QueryMethod GetDraftPostQuery
  | CallGetScheduledPost _ => QueryMethod GetScheduledPost
  | CallGetFeedPosts _ _ _ => QueryMethod GetFeedPosts
  | CallMutation m _ => MutationMethod m
  end.

(** The declared parameters of the called method, each with the argument
    it was called with. *)
Definition arguments (inv : Invocation) : list (string * JsVal) :=
  match inv with
  | CallGetPost postId => [("postId", JStr postId)]
  | CallGetPostPublication postId => [("postId", JStr postId)]
  | CallGetPostComments postId first after sortBy =>
      [("postId", JStr postId); ("first", JNum first);
       ("after", JStr after); ("sortBy", sortBy)]
  | CallGetPostCommenters postId first after sortBy =>
      [("postId", JStr postId); ("first", JNum first);
       ("after", JStr after); ("sortBy", sortBy)]
  | CallGetPostLikers postId first after filter =>
      [("postId", JStr postId); ("first", JNum first);
       ("after", JStr after); ("filter", filter)]
  | CallGetDraftPostQuery draftID => [("draftID", JStr draftID)]
  | CallGetScheduledPost scheduledPostID =>
      [("scheduledPostID", JStr scheduledPostID)]
  | CallGetFeedPosts first after filter =>
      [("first", JNum first); ("after", JStr after); ("filter", filter)]
  | CallMutation _ input => [("input", input)]
  end.

Section Dispatch.

Context {Document : Type} {queries : PostQueries Document}.

Definition mutation (m : Mutation) : MutationInput -> Async Document JsVal :=
  match m with
  | PublishPost => publishPost
  | AddPostToSeries => addPostToSeries
  | UpdatePost => updatePost
  | RemovePost => removePost
  | LikePost => likePost
  | LikeComment => likeComment
  | LikeReply => likeReply
  | AddComment => addComment
  | UpdateComment => updateComment
  | RemoveComment => removeComment
  | AddReply => addReply
  | UpdateReply => updateReply
  | RemoveReply => removeReply
  end.

Definition invoke (inv : Invocation) : Async Document JsVal :=
  match inv with
  | CallGetPost postId => getPost postId
  | CallGetPostPublication postId => getPostPublication postId
  | CallGetPostComments postId first after sortBy =>
      getPostComments postId first after sortBy
  | CallGetPostCommenters postId first after sortBy =>
      getPostCommenters postId first after sortBy
  | CallGetPostLikers postId first after filter =>
      getPostLikers postId first after filter
  | CallGetDraftPostQuery draftID => getDraftPostQuery draftID
  | CallGetScheduledPost scheduledPostID => getScheduledPost scheduledPostID
  | CallGetFeedPosts first after filter => getFeedPosts first after filter
  | CallMutation m input => mutation m input
  end.

End Dispatch.

(** ** Running a method against an executor *)

(** The request a program is waiting on, if it has come to an [await]. *)
Definition awaited {Document A : Type} (p : Async Document A)
    : option (Request Document) :=
  match p with
  | Await r _ => Some r
  | _ => None
  end.

(** What one run leaves behind: how the method's promise settled, the
    world after it, and the requests the executor received, in order. *)
Record Run (Document World A : Type) : Type := mkRun {
  outcome : Outcome A;
  finalWorld : World;
  calls : list (Request Document)
}.

Arguments mkRun {Document World A} _ _ _.
Arguments outcome {Document World A} _.
Arguments finalWorld {Document World A} _.
Arguments calls {Document World A} _.

Section Execution.

Context {Document World : Type}.

(** [BaseManager.makeRequest]: the executor.  It is owned by the base
    class and the client, so it is arbitrary here: given a request and
    the world (the client, the network, the server, the manager object
    itself) it resolves, rejects or never settles, and leaves a world. *)
Variable executor : Request Document -> World -> Outcome JsVal * World.

(** [await e]: a rejection of the awaited promise is thrown at the
    [await]; with no handler around it, the method's own promise rejects
    with the same reason.  A promise that never settles leaves the
    method pending.  [try { body } catch (e) { handler }]: what the body
    throws goes to the handler, and the code after the statement runs on
    the value of whichever of the two completed. *)
Fixpoint run {A : Type} (p : Async Document A) (w : World) : Run Document World A :=
  match p with
  | Return a => mkRun (Resolved a) w []
  | Throw e => mkRun (Rejected e) w []
  | Await r k =>
      match executor r w with
      | (Resolved v, w') =>
          let rest := run (k v) w' in
          mkRun (outcome rest) (finalWorld rest) (r :: calls rest)
      | (Rejected e, w') => mkRun (Rejected e) w' [r]
      | (Pending, w') => mkRun Pending w' [r]
      end
  | TryCatch body handler k =>
      let tried := run body w in
      match outcome tried with
      | Resolved v =>
          let rest := run (k v) (finalWorld tried) in
          mkRun (outcome rest) (finalWorld rest) (calls tried ++ calls rest)
      | Rejected e =>
          let caught := run (handler e) (finalWorld tried) in
          match outcome caught with
          | Resolved v =>
              let rest := run (k v) (finalWorld caught) in
              mkRun (outcome rest) (finalWorld rest)
                (calls tried ++ calls caught ++ calls rest)
          | Rejected e' =>
              mkRun (Rejected e') (finalWorld caught) (calls tried ++ calls caught)
          | Pending =>
              mkRun Pending (finalWorld caught) (calls tried ++ calls caught)
          end
      | Pending => mkRun Pending (finalWorld tried) (calls tried)
      end
  end.

End Execution.

(** The value of an object's property, [undefined] when it has none. *)
Definition field (props : list (string * JsVal)) (key : string) : JsVal :=
  match ownProperty props key with
  | Some v => v
  | None => JUndefined
  end.

(** ** Fixtures *)

Module Fixtures.

(** Documents stand for themselves: each constant is its own name. *)
#[export] Instance namedQueries : PostQueries string := {
  ADD_COMMENT_MUTATION := "ADD_COMMENT_MUTATION";
  ADD_POST_TO_SERIES_MUTATION := "ADD_POST_TO_SERIES_MUTATION";
  ADD_REPLY_MUTATION := "ADD_REPLY_MUTATION";
  GET_DRAFT_POST_QUERY := "GET_DRAFT_POST_QUERY";
  GET_FEED_POST := "GET_FEED_POST";
  GET_POST_COMMENTERS := "GET_POST_COMMENTERS";
  GET_POST_COMMENTS := "GET_POST_COMMENTS";
  GET_POST_LIKERS := "GET_POST_LIKERS";
  GET_POST_PUBLICATION_QUERY := "GET_POST_PUBLICATION_QUERY";
  GET_POST_QUERY := "GET_POST_QUERY";
  GET_SCHEDULED_POST_QUERY := "GET_SCHEDULED_POST_QUERY";
  LIKE_COMMENT_MUTATION := "LIKE_COMMENT_MUTATION";
  LIKE_POST_MUTATION := "LIKE_POST_MUTATION";
  LIKE_REPLY_MUTATION := "LIKE_REPLY_MUTATION";
  PUBLISH_POST_MUTATION := "PUBLISH_POST_MUTATION";
  REMOVE_COMMENT_MUTATION := "REMOVE_COMMENT_MUTATION";
  REMOVE_POST_MUTATION := "REMOVE_POST_MUTATION";
  REMOVE_REPLY_MUTATION := "REMOVE_REPLY_MUTATION";
  UPDATE_COMMENT_MUTATION := "UPDATE_COMMENT_MUTATION";
  UPDATE_POST_MUTATION := "UPDATE_POST_MUTATION";
  UPDATE_REPLY_MUTATION := "UPDATE_REPLY_MUTATION"
}.

(** A stub executor: it settles every request the same way and counts
    the requests it has served; the count is the whole world. *)
Definition stub (reply : Outcome JsVal) : Request string -> nat -> Outcome JsVal * nat :=
  fun _ served => (reply, S served).

Definition aPost : JsVal :=
  JObj [("id", JStr "p1"); ("title", JStr "Hello");
        ("publication", JObj [("id", JStr "pub1")]);
        ("comments", JObj [("totalDocuments", JNum 2%float)]);
        ("commenters", JObj [("totalDocuments", JNum 1%float)]);
        ("likedBy", JObj [("totalDocuments", JNum 3%float)])].

Definition postEnvelope : list (string * JsVal) := [("post", aPost)].

Definition anInput : JsVal :=
  JObj [("title", JStr "Hello"); ("publicationId", JStr "pub1")].

Definition publishEnvelope : list (string * JsVal) :=
  [("publishedpost", JObj [("post", aPost)])].

Definition nullEnvelope : list (string * JsVal) := [("post", JNull)].

Definition unauthorized : Exn := ErrorObject "ClientError" "Unauthorized".

End Fixtures.

(** ** Documents per method *)

Section Documents.

Context {Document : Type} {queries : PostQueries Document}.

(** The constant each method passes as the second argument of
    [makeRequest]. *)
Definition documentOf (m : Method) : Document :=
  match m with
  | QueryMethod GetPost => GET_POST_QUERY
  | QueryMethod GetPostPublication => GET_POST_PUBLICATION_QUERY
  | QueryMethod GetPostComments => GET_POST_COMMENTS
  | QueryMethod GetPostCommenters => GET_POST_COMMENTERS
  | QueryMethod GetPostLikers => GET_POST_LIKERS
  | QueryMethod GetDraftPostQuery => GET_DRAFT_POST_QUERY
  | QueryMethod GetScheduledPost => GET_SCHEDULED_POST_QUERY
  | QueryMethod GetFeedPosts => GET_FEED_POST
  | MutationMethod PublishPost => PUBLISH_POST_MUTATION
  | MutationMethod AddPostToSeries => ADD_POST_TO_SERIES_MUTATION
  | MutationMethod UpdatePost => UPDATE_POST_MUTATION
  | MutationMethod RemovePost => REMOVE_POST_MUTATION
  | MutationMethod LikePost => LIKE_POST_MUTATION
  | MutationMethod LikeComment => LIKE_COMMENT_MUTATION
  | MutationMethod LikeReply => LIKE_REPLY_MUTATION
  | MutationMethod AddComment => ADD_COMMENT_MUTATION
  | MutationMethod UpdateComment => UPDATE_COMMENT_MUTATION
  | MutationMethod RemoveComment => REMOVE_COMMENT_MUTATION
  | MutationMethod AddReply => ADD_REPLY_MUTATION
  | MutationMethod UpdateReply => UPDATE_REPLY_MUTATION
  | MutationMethod RemoveReply => REMOVE_REPLY_MUTATION
  end.

End Documents.

(** * Properties *)

(** ** Running property reads and whole methods *)

Section RunFacts.

Context {Document World : Type} {queries : PostQueries Document}.
Variable executor : Request Document -> World -> Outcome JsVal * World.

Lemma run_get (v : JsVal) (key : string) (w : World) :
  run executor (get (Document := Document) v key) w
  = mkRun (outcomeOf (readPath v [key])) w [].
Proof.
  unfold get. simpl. destruct (readProperty v key); reflexivity.
Qed.

Lemma run_get_get (v : JsVal) (k1 k2 : string) (w : World) :
  run executor (bindAsync (get (Document := Document) v k1) (fun x => get x k2)) w
  = mkRun (outcomeOf (readPath v [k1; k2])) w [].
Proof.
  unfold get at 1. simpl. destruct (readProperty v k1) as [e | x]; simpl.
  - reflexivity.
  - unfold get. destruct (readProperty x k2); reflexivity.
Qed.

(** Every method starts by awaiting one request. *)
Lemma invoke_awaits (inv : Invocation) :
  exists r, awaited (invoke (Document := Document) inv) = Some r.
Proof.
  destruct inv as [ | | | | | | | | m input]; try (eexists; reflexivity).
  destruct m; eexists; reflexivity.
Qed.

(** One run of any method, whatever the executor does: the request is
    handed over once; a resolved envelope is read along the method's
    path; a rejection or a promise that stays pending is the method's
    own outcome. *)
Lemma run_invoke (inv : Invocation) (r : Request Document) (w : World) :
  awaited (invoke inv) = Some r ->
  run executor (invoke inv) w
  = match executor r w with
    | (Resolved env, w') =>
        mkRun (outcomeOf (readPath env (designatedPath (methodOf inv)))) w' [r]
    | (Rejected e, w') => mkRun (Rejected e) w' [r]
    | (Pending, w') => mkRun Pending w' [r]
    end.
Proof.
  intros Hr.
  destruct inv as [ | | | | | | | | m input]; [ | | | | | | | | destruct m];
    simpl in Hr; injection Hr as <-; simpl;
    destruct (executor _ w) as [[env | e | ] w']; try reflexivity;
    first [ rewrite run_get | rewrite run_get_get ]; reflexivity.
Qed.

(** One run of a method that returns a top-level field, and of one that
    unwraps a payload. *)
Lemma run_invoke_flat (inv : Invocation) (r : Request Document) (key : string)
    (w : World) :
  awaited (invoke inv) = Some r ->
  designatedPath (methodOf inv) = [key] ->
  calls (run executor (invoke inv) w) = [r]
  /\ forall env w',
       executor r w = (Resolved env, w') ->
       outcome (run executor (invoke inv) w) = outcomeOf (readPath env [key])
       /\ forall props,
            env = JObj props ->
            outcome (run executor (invoke inv) w) = Resolved (field props key).
Proof.
  intros Hr Hpath. rewrite (run_invoke inv r w Hr), Hpath. split.
  - destruct (executor r w) as [[env | e | ] w']; reflexivity.
  - intros env w' Hex. rewrite Hex. cbn [outcome]. split; [reflexivity | ].
    intros props ->. unfold field. simpl.
    destruct (ownProperty props key); reflexivity.
Qed.

Lemma run_invoke_nested (inv : Invocation) (r : Request Document)
    (top sub : string) (w : World) :
  awaited (invoke inv) = Some r ->
  designatedPath (methodOf inv) = [top; sub] ->
  calls (run executor (invoke inv) w) = [r]
  /\ forall env w',
       executor r w = (Resolved env, w') ->
       outcome (run executor (invoke inv) w) = outcomeOf (readPath env [top; sub])
       /\ forall props payload,
            env = JObj props ->
            ownProperty props top = Some (JObj payload) ->
            outcome (run executor (invoke inv) w) = Resolved (field payload sub).
Proof.
  intros Hr Hpath. rewrite (run_invoke inv r w Hr), Hpath. split.
  - destruct (executor r w) as [[env | e | ] w']; reflexivity.
  - intros env w' Hex. rewrite Hex. cbn [outcome]. split; [reflexivity | ].
    intros props payload -> Hp. unfold field. simpl. rewrite Hp. simpl.
    destruct (ownProperty payload sub); reflexivity.
Qed.

End RunFacts.

(** Reading one or two properties of an object. *)
Lemma readPath_object (props : list (string * JsVal)) (key : string) :
  readPath (JObj props) [key] = inr (field props key).
Proof.
  unfold field. simpl. destruct (ownProperty props key); reflexivity.
Qed.

Lemma readPath_nested (props : list (string * JsVal)) (top sub : string) :
  readPath (JObj props) [top; sub] = readProperty (field props top) sub.
Proof.
  unfold field. simpl.
  destruct (ownProperty props top) as [x | ]; simpl;
    [destruct (readProperty x sub) | ]; reflexivity.
Qed.

Lemma readProperty_not_nullish (v : JsVal) (key : string) :
  isNullish v = false -> exists x, readProperty v key = inr x.
Proof.
  destruct v; simpl; intros H; try discriminate; eauto.
  destruct (ownProperty props key); eauto.
Qed.

Lemma readProperty_nullish (v : JsVal) (key : string) :
  isNullish v = true -> readProperty v key = inl (PropertyAccessError v key).
Proof.
  destruct v; simpl; intros H; try discriminate; reflexivity.
Qed.

(** ** What each method sends and returns *)

Section Claims.

Context {Document World : Type} {queries : PostQueries Document}.
Variable executor : Request Document -> World -> Outcome JsVal * World.

(** C1.  [getPost postId] hands the executor the operation name
    ['getPost'], the document [GET_POST_QUERY] and the variables
    [{ postId }], once; whatever envelope the executor resolves with,
    the method settles as the read [envelope.post] does, and for an
    envelope object it resolves with exactly the envelope's [post]
    field. *)
Theorem getPost_forwards_and_returns_post (postId : string) (w : World) :
  calls (run executor (getPost postId) w)
    = [mkRequest "getPost" GET_POST_QUERY (JObj [("postId", JStr postId)])]
  /\ (forall env w',
        executor (mkRequest "getPost" GET_POST_QUERY
                    (JObj [("postId", JStr postId)])) w = (Resolved env, w') ->
        outcome (run executor (getPost postId) w)
          = outcomeOf (readPath env ["post"]))
  /\ (forall props w',
        executor (mkRequest "getPost" GET_POST_QUERY
                    (JObj [("postId", JStr postId)])) w
          = (Resolved (JObj props), w') ->
        outcome (run executor (getPost postId) w)
          = Resolved (field props "post")).
Proof.
  pose proof (run_invoke executor (CallGetPost postId) _ w eq_refl) as Hrun.
  change (invoke (CallGetPost postId)) with (getPost postId) in Hrun.
  rewrite Hrun. repeat split.
  - destruct (executor _ w) as [[env | e | ] w']; reflexivity.
  - intros env w' Hex. rewrite Hex. reflexivity.
  - intros props w' Hex. rewrite Hex.
    cbn [outcome methodOf designatedPath]. rewrite readPath_object. reflexivity.
Qed.

(** C2.  Each of the thirteen mutation methods (publishPost,
    addPostToSeries, updatePost, removePost, likePost, likeComment,
    likeReply, addComment, updateComment, removeComment, addReply,
    updateReply, removeReply) passes the executor the variables object
    [{ input }], holding the caller's input as it was given, for every
    input and in every run. *)
Theorem mutation_variables_are_input (m : Mutation) (input : MutationInput) (w : World) :
  map mutationName allMutations
    = ["publishPost"; "addPostToSeries"; "updatePost"; "removePost";
       "likePost"; "likeComment"; "likeReply"; "addComment";
       "updateComment"; "removeComment"; "addReply"; "updateReply";
       "removeReply"]
  /\ In m allMutations
  /\ option_map variables (awaited (mutation (Document := Document) m input))
       = Some (JObj [("input", input)])
  /\ map variables (calls (run executor (mutation m input) w))
       = [JObj [("input", input)]].
Proof.
  split; [reflexivity | ].
  split; [destruct m; simpl; tauto | ].
  split; [destruct m; reflexivity | ].
  destruct (invoke_awaits (Document := Document) (CallMutation m input)) as [r Hr].
  pose proof (run_invoke executor (CallMutation m input) r w Hr) as Hrun.
  change (invoke (CallMutation m input)) with (mutation m input) in Hrun, Hr.
  rewrite Hrun.
  assert (Hv : variables r = JObj [("input", input)])
    by (destruct m; simpl in Hr; injection Hr as <-; reflexivity).
  destruct (executor r w) as [[env | e | ] w']; simpl; rewrite Hv; reflexivity.
Qed.

(** C3.  Each of the thirteen mutation methods hands over its one
    request and returns one named field of the decoded response,
    sometimes a nested one: for every envelope the executor resolves
    with, the method settles as the read of its path does.  The paths are
    listed per method: [publishPost] settles as
    [envelope.publishedpost.post] (the payload is unwrapped), while
    [updatePost] settles as [envelope.updatedPost] and [addPostToSeries]
    as [envelope.series] (the payload itself).  For an envelope object
    whose [publishedpost] is an object, [publishPost] resolves with that
    payload's [post] field. *)
Theorem mutations_return_designated_field
    (m : Mutation) (input : MutationInput) (env : JsVal) (w w' : World) :
  map (fun u => (mutationName u, designatedPath (MutationMethod u))) allMutations
    = [("publishPost", ["publishedpost"; "post"]);
       ("addPostToSeries", ["series"]);
       ("updatePost", ["updatedPost"]);
       ("removePost", ["removedPost"]);
       ("likePost", ["likedPost"]);
       ("likeComment", ["likedComment"; "comment"]);
       ("likeReply", ["likedReply"; "reply"]);
       ("addComment", ["addedComment"; "comment"]);
       ("updateComment", ["updatedComment"; "comment"]);
       ("removeComment", ["removedComment"; "comment"]);
       ("addReply", ["addedReply"; "reply"]);
       ("updateReply", ["updatedReply"; "reply"]);
       ("removeReply", ["removedReply"; "reply"])]
  /\ calls (run executor (mutation m input) w)
     = [mkRequest (mutationName m) (documentOf (MutationMethod m))
          (JObj [("input", input)])]
  /\ (executor (mkRequest (mutationName m) (documentOf (MutationMethod m))
                  (JObj [("input", input)])) w = (Resolved env, w') ->
      outcome (run executor (mutation m input) w)
      = outcomeOf (readPath env (designatedPath (MutationMethod m))))
  /\ (executor (mkRequest "publishPost" PUBLISH_POST_MUTATION
                  (JObj [("input", input)])) w = (Resolved env, w') ->
      outcome (run executor (publishPost input) w)
        = outcomeOf (readPath env ["publishedpost"; "post"])
      /\ forall props payload,
           env = JObj props ->
           ownProperty props "publishedpost" = Some (JObj payload) ->
           outcome (run executor (publishPost input) w)
             = Resolved (field payload "post"))
  /\ (executor (mkRequest "updatePost" UPDATE_POST_MUTATION
                  (JObj [("input", input)])) w = (Resolved env, w') ->
      outcome (run executor (updatePost input) w)
        = outcomeOf (readPath env ["updatedPost"])
      /\ forall props,
           env = JObj props ->
           outcome (run executor (updatePost input) w)
             = Resolved (field props "updatedPost"))
  /\ (executor (mkRequest "addPostToSeries" ADD_POST_TO_SERIES_MUTATION
                  (JObj [("input", input)])) w = (Resolved env, w') ->
      outcome (run executor (addPostToSeries input) w)
        = outcomeOf (readPath env ["series"])
      /\ forall props,
           env = JObj props ->
           outcome (run executor (addPostToSeries input) w)
             = Resolved (field props "series")).
Proof.
  split; [reflexivity | ].
  assert (Hall : forall u,
            awaited (invoke (Document := Document) (CallMutation u input))
            = Some (mkRequest (mutationName u) (documentOf (MutationMethod u))
                      (JObj [("input", input)])))
    by (intros u; destruct u; reflexivity).
  split; [ | split; [ | split; [ | split]]].
  - change (mutation m input) with (invoke (CallMutation m input)).
    rewrite (run_invoke executor _ _ w (Hall m)).
    destruct (executor _ w) as [[x | e | ] v]; reflexivity.
  - intros Hex.
    change (mutation m input) with (invoke (CallMutation m input)).
    rewrite (run_invoke executor _ _ w (Hall m)), Hex. reflexivity.
  - intros Hex.
    exact (proj2 (run_invoke_nested executor (CallMutation PublishPost input)
                    _ "publishedpost" "post" w eq_refl eq_refl) env w' Hex).
  - intros Hex.
    exact (proj2 (run_invoke_flat executor (CallMutation UpdatePost input)
                    _ "updatedPost" w eq_refl eq_refl) env w' Hex).
  - intros Hex.
    exact (proj2 (run_invoke_flat executor (CallMutation AddPostToSeries input)
                    _ "series" w eq_refl eq_refl) env w' Hex).
Qed.

(** C4.  Each query that reads below [post] hands over its one request
    and returns its designated sub-field: for every envelope the executor
    resolves with, [getPostPublication] settles as the read
    [envelope.post.publication] does, [getPostComments] as
    [envelope.post.comments], [getPostCommenters] as
    [envelope.post.commenters] and [getPostLikers] as
    [envelope.post.likedBy]; for an envelope object whose [post] is an
    object, each resolves with that field of the post. *)
Theorem nested_queries_return_subfield
    (postId : string) (first : float) (after : string)
    (sortBy : PostCommentSortBy) (commenterSortBy : PostCommenterSortBy)
    (filter : PostLikerFilter) (w : World) :
  (calls (run executor (getPostPublication postId) w)
     = [mkRequest "getPostPublication" GET_POST_PUBLICATION_QUERY
          (JObj [("postId", JStr postId)])]
   /\ forall env w',
        executor (mkRequest "getPostPublication" GET_POST_PUBLICATION_QUERY
                    (JObj [("postId", JStr postId)])) w = (Resolved env, w') ->
        outcome (run executor (getPostPublication postId) w)
          = outcomeOf (readPath env ["post"; "publication"])
        /\ forall props post,
             env = JObj props -> ownProperty props "post" = Some (JObj post) ->
             outcome (run executor (getPostPublication postId) w)
               = Resolved (field post "publication"))
  /\ (calls (run executor (getPostComments postId first after sortBy) w)
        = [mkRequest "getPostComments" GET_POST_COMMENTS
             (JObj [("postId", JStr postId); ("first", JNum first);
                    ("after", JStr after); ("sortBy", sortBy)])]
      /\ forall env w',
           executor (mkRequest "getPostComments" GET_POST_COMMENTS
                       (JObj [("postId", JStr postId); ("first", JNum first);
                              ("after", JStr after); ("sortBy", sortBy)])) w
             = (Resolved env, w') ->
           outcome (run executor (getPostComments postId first after sortBy) w)
             = outcomeOf (readPath env ["post"; "comments"])
           /\ forall props post,
                env = JObj props -> ownProperty props "post" = Some (JObj post) ->
                outcome (run executor (getPostComments postId first after sortBy) w)
                  = Resolved (field post "comments"))
  /\ (calls (run executor (getPostCommenters postId first after commenterSortBy) w)
        = [mkRequest "getPostCommenters" GET_POST_COMMENTERS
             (JObj [("postId", JStr postId); ("first", JNum first);
                    ("after", JStr after); ("sortBy", commenterSortBy)])]
      /\ forall env w',
           executor (mkRequest "getPostCommenters" GET_POST_COMMENTERS
                       (JObj [("postId", JStr postId); ("first", JNum first);
                              ("after", JStr after); ("sortBy", commenterSortBy)])) w
             = (Resolved env, w') ->
           outcome (run executor
                      (getPostCommenters postId first after commenterSortBy) w)
             = outcomeOf (readPath env ["post"; "commenters"])
           /\ forall props post,
                env = JObj props -> ownProperty props "post" = Some (JObj post) ->
                outcome (run executor
                           (getPostCommenters postId first after commenterSortBy) w)
                  = Resolved (field post "commenters"))
  /\ (calls (run executor (getPostLikers postId first after filter) w)
        = [mkRequest "getPostLikers" GET_POST_LIKERS
             (JObj [("postId", JStr postId); ("first", JNum first);
                    ("after", JStr after); ("filter", filter)])]
      /\ forall env w',
           executor (mkRequest "getPostLikers" GET_POST_LIKERS
                       (JObj [("postId", JStr postId); ("first", JNum first);
                              ("after", JStr after); ("filter", filter)])) w
             = (Resolved env, w') ->
           outcome (run executor (getPostLikers postId first after filter) w)
             = outcomeOf (readPath env ["post"; "likedBy"])
           /\ forall props post,
                env = JObj props -> ownProperty props "post" = Some (JObj post) ->
                outcome (run executor (getPostLikers postId first after filter) w)
                  = Resolved (field post "likedBy")).
Proof.
  split; [ | split; [ | split]].
  - exact (run_invoke_nested executor (CallGetPostPublication postId)
             _ "post" "publication" w eq_refl eq_refl).
  - exact (run_invoke_nested executor
             (CallGetPostComments postId first after sortBy)
             _ "post" "comments" w eq_refl eq_refl).
  - exact (run_invoke_nested executor
             (CallGetPostCommenters postId first after commenterSortBy)
             _ "post" "commenters" w eq_refl eq_refl).
  - exact (run_invoke_nested executor
             (CallGetPostLikers postId first after filter)
             _ "post" "likedBy" w eq_refl eq_refl).
Qed.

(** C5, as the code has it.  The value of every argument reaches the
    executor unchanged, in declaration order.  [getDraftPostQuery]
    forwards its argument as [{ id: draftID }] and [getScheduledPost] as
    [{ id: scheduledPostID }]: under the key ['id'], not under the
    parameter's name.  Every other method forwards each argument under
    the name of its parameter. *)
Theorem arguments_forwarded_under_schema_keys (inv : Invocation) (w : World) :
  (forall draftID,
     map variables (calls (run executor (getDraftPostQuery draftID) w))
       = [JObj [("id", JStr draftID)]])
  /\ (forall scheduledPostID,
        map variables (calls (run executor (getScheduledPost scheduledPostID) w))
          = [JObj [("id", JStr scheduledPostID)]])
  /\ exists props,
       map variables (calls (run executor (invoke inv) w)) = [JObj props]
       /\ map snd props = map snd (arguments inv)
       /\ match methodOf inv with
          | QueryMethod GetDraftPostQuery | QueryMethod GetScheduledPost =>
              map fst props = ["id"]
          | _ => props = arguments inv
          end.
Proof.
  assert (Hcalls : forall i r, awaited (invoke i) = Some r ->
            map variables (calls (run executor (invoke i) w)) = [variables r]).
  { intros i r Hr. rewrite (run_invoke executor i r w Hr).
    destruct (executor r w) as [[env | e | ] w']; reflexivity. }
  split; [ | split].
  - intros draftID. exact (Hcalls (CallGetDraftPostQuery draftID) _ eq_refl).
  - intros scheduledPostID.
    exact (Hcalls (CallGetScheduledPost scheduledPostID) _ eq_refl).
  - destruct inv as [ | | | | | | | | m input]; [ | | | | | | | | destruct m];
      (match goal with
       | |- context [invoke ?i] => rewrite (Hcalls i _ eq_refl)
       end; simpl;
       eexists; split; [reflexivity | split; reflexivity]).
Qed.

(** C6.  No method catches, translates or wraps a failure: every
    invocation of every method hands the executor one request, and for
    every error [e], if the executor rejects that request with [e], the
    method rejects with exactly [e] and does nothing more. *)
Theorem executor_failure_propagates (inv : Invocation) (w : World) :
  exists r,
    calls (run executor (invoke inv) w) = [r]
    /\ forall e w',
         executor r w = (Rejected e, w') ->
         run executor (invoke inv) w = mkRun (Rejected e) w' [r].
Proof.
  destruct (invoke_awaits (Document := Document) inv) as [r Hr].
  exists r. rewrite (run_invoke executor inv r w Hr). split.
  - destruct (executor r w) as [[env | e | ] w']; reflexivity.
  - intros e w' Hex. rewrite Hex. reflexivity.
Qed.

(** C7.  Every invocation of every method calls the executor exactly
    once, and the world it leaves is the world that one call left: the
    method itself changes nothing, repeats nothing and keeps nothing. *)
Theorem one_call_and_no_other_effect (inv : Invocation) (w : World) :
  exists r,
    awaited (invoke inv) = Some r
    /\ calls (run executor (invoke inv) w) = [r]
    /\ finalWorld (run executor (invoke inv) w) = snd (executor r w).
Proof.
  destruct (invoke_awaits (Document := Document) inv) as [r Hr].
  exists r. split; [exact Hr | ].
  rewrite (run_invoke executor inv r w Hr).
  destruct (executor r w) as [[env | e | ] w']; split; reflexivity.
Qed.

(** C9.  Field extraction is partial.  The thirteen methods that unwrap
    a nested sub-field are getPostPublication, getPostComments,
    getPostCommenters, getPostLikers, publishPost, likeComment,
    likeReply, addComment, updateComment, removeComment, addReply,
    updateReply and removeReply.  Each of them hands over one request;
    when the executor resolves it with an envelope (any value but null
    and undefined) whose named top-level field is null or absent, the
    method rejects with the property-access error of reading the
    sub-field; when the envelope holds the field with a value that is
    neither null nor undefined, the method resolves and does not
    reject. *)
Theorem nested_extraction_is_partial
    (inv : Invocation) (top sub : string) (w : World) :
  map methodName (filter unwrapsNested allMethods)
    = ["getPostPublication"; "getPostComments"; "getPostCommenters";
       "getPostLikers"; "publishPost"; "likeComment"; "likeReply";
       "addComment"; "updateComment"; "removeComment"; "addReply";
       "updateReply"; "removeReply"]
  /\ (designatedPath (methodOf inv) = [top; sub] ->
      exists r,
        calls (run executor (invoke inv) w) = [r]
        /\ forall env w',
             executor r w = (Resolved env, w') ->
             isNullish env = false ->
             exists x,
               readProperty env top = inr x
               /\ (forall props, env = JObj props -> x = field props top)
               /\ (isNullish x = true ->
                   outcome (run executor (invoke inv) w)
                     = Rejected (PropertyAccessError x sub))
               /\ (isNullish x = false ->
                   (exists v, readProperty x sub = inr v
                              /\ outcome (run executor (invoke inv) w) = Resolved v)
                   /\ forall e, outcome (run executor (invoke inv) w) <> Rejected e)).
Proof.
  split; [reflexivity | ].
  intros Hpath.
  destruct (invoke_awaits (Document := Document) inv) as [r Hr].
  exists r. rewrite (run_invoke executor inv r w Hr), Hpath. split.
  - destruct (executor r w) as [[env | e | ] w']; reflexivity.
  - intros env w' Hex Henv. rewrite Hex. cbn [outcome readPath].
    destruct (readProperty_not_nullish env top Henv) as [x Hx].
    exists x. rewrite Hx. split; [reflexivity | ]. split; [ | split].
    + intros props ->. unfold field. simpl in Hx.
      destruct (ownProperty props top); congruence.
    + intros Hn. rewrite (readProperty_nullish x sub Hn). reflexivity.
    + intros Hn. destruct (readProperty_not_nullish x sub Hn) as [v Hv].
      rewrite Hv. split.
      * exists v. split; reflexivity.
      * intros e. simpl. discriminate.
Qed.

(** C10.  The operation name every method passes to the executor is the
    method's own name, in every run; the class has twenty-one methods
    and their names, hence their operation names, are pairwise
    distinct. *)
Theorem operation_name_is_method_name (inv : Invocation) (w : World) :
  map operationName (calls (run executor (invoke inv) w))
    = [methodName (methodOf inv)]
  /\ In (methodOf inv) allMethods
  /\ length allMethods = 21
  /\ NoDup (map methodName allMethods)
  /\ map operationName (calls (run executor (getPost "p") w)) = ["getPost"]
  /\ map operationName (calls (run executor (getDraftPostQuery "d") w))
       = ["getDraftPostQuery"]
  /\ map operationName (calls (run executor (removeReply JNull) w))
       = ["removeReply"].
Proof.
  assert (Hname : forall i,
            map operationName (calls (run executor (invoke i) w))
            = [methodName (methodOf i)]).
  { intros i. destruct (invoke_awaits (Document := Document) i) as [r Hr].
    rewrite (run_invoke executor i r w Hr).
    assert (Hn : operationName r = methodName (methodOf i)).
    { destruct i as [ | | | | | | | | m input]; [ | | | | | | | | destruct m];
        simpl in Hr; injection Hr as <-; reflexivity. }
    destruct (executor r w) as [[env | e | ] w']; simpl; rewrite Hn; reflexivity. }
  split; [apply Hname | ].
  split.
  { destruct inv as [ | | | | | | | | m input]; simpl; try tauto.
    destruct m; simpl; tauto. }
  split; [reflexivity | ].
  split.
  { cbn [allMethods allQueries allMutations map app methodName queryName mutationName].
    repeat (constructor; [simpl; intuition discriminate | ]). constructor. }
  split; [exact (Hname (CallGetPost "p")) | ].
  split; [exact (Hname (CallGetDraftPostQuery "d")) | ].
  exact (Hname (CallMutation RemoveReply JNull)).
Qed.

End Claims.

(** ** Two runs of one invocation *)

Section Determinism.

Context {Document World1 World2 : Type} {queries : PostQueries Document}.
Variable executor1 : Request Document -> World1 -> Outcome JsVal * World1.
Variable executor2 : Request Document -> World2 -> Outcome JsVal * World2.

(** C8.  The request a method hands to the executor is a function of the
    method and its arguments alone: two runs of the same invocation,
    against any two executors and from any two worlds, hand over the
    same (operationName, document, variables) triples; in particular
    the request is the same after any prior call as before it. *)
Theorem request_depends_on_arguments_only
    (inv : Invocation) (w1 : World1) (w2 : World2) :
  calls (run executor1 (invoke inv) w1) = calls (run executor2 (invoke inv) w2)
  /\ map (fun r => (operationName r, document r, variables r))
         (calls (run executor1 (invoke inv) w1))
     = map (fun r => (operationName r, document r, variables r))
           (calls (run executor2 (invoke inv) w2))
  /\ forall prior : Invocation,
       calls (run executor1 (invoke inv)
                (finalWorld (run executor1 (invoke prior) w1)))
       = calls (run executor1 (invoke inv) w1).
Proof.
  destruct (invoke_awaits (Document := Document) inv) as [r Hr].
  assert (H1 : forall w, calls (run executor1 (invoke inv) w) = [r]).
  { intros w. rewrite (run_invoke executor1 inv r w Hr).
    destruct (executor1 r w) as [[env | e | ] w']; reflexivity. }
  assert (H2 : calls (run executor2 (invoke inv) w2) = [r]).
  { rewrite (run_invoke executor2 inv r w2 Hr).
    destruct (executor2 r w2) as [[env | e | ] w']; reflexivity. }
  split; [ | split].
  - rewrite H1, H2. reflexivity.
  - rewrite H1, H2. reflexivity.
  - intros prior. rewrite !H1. reflexivity.
Qed.

End Determinism.

(** ** The properties on fixtures *)

Import Fixtures.

(** [getPost] against a stub that resolves with [{ post: aPost }]. *)
Lemma getPost_on_fixture :
  calls (run (stub (Resolved (JObj postEnvelope))) (getPost "p1") 0)
    = [mkRequest "getPost" "GET_POST_QUERY" (JObj [("postId", JStr "p1")])]
  /\ outcome (run (stub (Resolved (JObj postEnvelope))) (getPost "p1") 0)
     = Resolved aPost.
Proof.
  destruct (getPost_forwards_and_returns_post
              (stub (Resolved (JObj postEnvelope))) "p1" 0) as (Hcalls & _ & Hobj).
  split; [exact Hcalls | exact (Hobj postEnvelope 1 eq_refl)].
Defined.

(** [publishPost], [updatePost], [addPostToSeries] and [removePost]
    against stubs that resolve with a payload under the field each of
    them reads. *)
Lemma mutations_on_fixture :
  outcome (run (stub (Resolved (JObj publishEnvelope))) (publishPost anInput) 0)
    = Resolved aPost
  /\ outcome (run (stub (Resolved (JObj [("updatedPost", aPost)])))
                (updatePost anInput) 0)
     = Resolved aPost
  /\ outcome (run (stub (Resolved (JObj [("series", JStr "s1")])))
                (addPostToSeries anInput) 0)
     = Resolved (JStr "s1")
  /\ outcome (run (stub (Resolved (JObj [("removedPost", aPost)])))
                (mutation RemovePost anInput) 0)
     = Resolved aPost.
Proof.
  split; [ | split; [ | split]].
  - destruct (mutations_return_designated_field
                (stub (Resolved (JObj publishEnvelope))) PublishPost anInput
                (JObj publishEnvelope) 0 1) as (_ & _ & _ & Hpublish & _ & _).
    destruct (Hpublish eq_refl) as [_ Hobj].
    exact (Hobj publishEnvelope [("post", aPost)] eq_refl eq_refl).
  - destruct (mutations_return_designated_field
                (stub (Resolved (JObj [("updatedPost", aPost)]))) UpdatePost anInput
                (JObj [("updatedPost", aPost)]) 0 1) as (_ & _ & _ & _ & Hupdate & _).
    destruct (Hupdate eq_refl) as [_ Hobj].
    exact (Hobj [("updatedPost", aPost)] eq_refl).
  - destruct (mutations_return_designated_field
                (stub (Resolved (JObj [("series", JStr "s1")]))) AddPostToSeries
                anInput (JObj [("series", JStr "s1")]) 0 1)
      as (_ & _ & _ & _ & _ & Hseries).
    destruct (Hseries eq_refl) as [_ Hobj].
    exact (Hobj [("series", JStr "s1")] eq_refl).
  - destruct (mutations_return_designated_field
                (stub (Resolved (JObj [("removedPost", aPost)]))) RemovePost
                anInput (JObj [("removedPost", aPost)]) 0 1)
      as (_ & _ & Hany & _).
    exact (Hany eq_refl).
Defined.

(** The four nested queries against a stub that resolves with
    [{ post: aPost }]. *)
Lemma nested_queries_on_fixture :
  outcome (run (stub (Resolved (JObj postEnvelope))) (getPostPublication "p1") 0)
    = Resolved (JObj [("id", JStr "pub1")])
  /\ outcome (run (stub (Resolved (JObj postEnvelope)))
                (getPostComments "p1" 10%float "c0" (JStr "TOP")) 0)
     = Resolved (JObj [("totalDocuments", JNum 2%float)])
  /\ outcome (run (stub (Resolved (JObj postEnvelope)))
                (getPostCommenters "p1" 10%float "c0" (JStr "POPULAR")) 0)
     = Resolved (JObj [("totalDocuments", JNum 1%float)])
  /\ outcome (run (stub (Resolved (JObj postEnvelope)))
                (getPostLikers "p1" 10%float "c0" JNull) 0)
     = Resolved (JObj [("totalDocuments", JNum 3%float)]).
Proof.
  destruct (nested_queries_return_subfield
              (stub (Resolved (JObj postEnvelope)))
              "p1" 10%float "c0" (JStr "TOP") (JStr "POPULAR") JNull 0)
    as ((_ & Hpub) & (_ & Hcom) & (_ & Hcrs) & (_ & Hlik)).
  split; [ | split; [ | split]].
  - destruct (Hpub (JObj postEnvelope) 1 eq_refl) as [_ Hobj].
    exact (Hobj postEnvelope _ eq_refl eq_refl).
  - destruct (Hcom (JObj postEnvelope) 1 eq_refl) as [_ Hobj].
    exact (Hobj postEnvelope _ eq_refl eq_refl).
  - destruct (Hcrs (JObj postEnvelope) 1 eq_refl) as [_ Hobj].
    exact (Hobj postEnvelope _ eq_refl eq_refl).
  - destruct (Hlik (JObj postEnvelope) 1 eq_refl) as [_ Hobj].
    exact (Hobj postEnvelope _ eq_refl eq_refl).
Defined.

(** C5 as the claim words it fails: the variables of [getDraftPostQuery]
    have no key ['draftID'] and those of [getScheduledPost] no key
    ['scheduledPostID']; both objects carry the key ['id']. *)
Lemma draft_variables_not_keyed_by_parameter_name :
  map variables (calls (run (stub Pending) (getDraftPostQuery "d1") 0))
    <> [JObj [("draftID", JStr "d1")]]
  /\ map variables (calls (run (stub Pending) (getScheduledPost "s1") 0))
     <> [JObj [("scheduledPostID", JStr "s1")]]
  /\ map variables (calls (run (stub Pending) (getDraftPostQuery "d1") 0))
     = [JObj [("id", JStr "d1")]]
  /\ map variables (calls (run (stub Pending) (getScheduledPost "s1") 0))
     = [JObj [("id", JStr "s1")]].
Proof.
  repeat split; try reflexivity; intros H; vm_compute in H; discriminate H.
Qed.

(** A rejected request: [getPost] rejects with the executor's own error. *)
Lemma failure_propagates_on_fixture :
  run (stub (Rejected unauthorized)) (invoke (CallGetPost "p1")) 0
  = mkRun (Rejected unauthorized) 1
      [mkRequest "getPost" "GET_POST_QUERY" (JObj [("postId", JStr "p1")])].
Proof.
  destruct (executor_failure_propagates (stub (Rejected unauthorized))
              (CallGetPost "p1") 0) as (r & Hcalls & Hrejected).
  simpl in Hcalls. injection Hcalls as <-.
  exact (Hrejected unauthorized 1 eq_refl).
Defined.

(** The same request under a handler: the failure is swallowed.  This is
    what a method that caught its executor's error would do, and what no
    method of PostManager does. *)
Lemma caught_failure_does_not_propagate :
  run (stub (Rejected unauthorized))
    (TryCatch (getPost "p1") (fun _ => Return JNull) Return) 0
  = mkRun (Resolved JNull) 1
      [mkRequest "getPost" "GET_POST_QUERY" (JObj [("postId", JStr "p1")])].
Proof. reflexivity. Qed.

(** [getPostPublication] on [{ post: null }] and on [{ post: aPost }]. *)
Lemma nested_extraction_on_fixture :
  outcome (run (stub (Resolved (JObj nullEnvelope)))
             (invoke (CallGetPostPublication "p1")) 0)
    = Rejected (PropertyAccessError JNull "publication")
  /\ outcome (run (stub (Resolved (JObj postEnvelope)))
                (invoke (CallGetPostPublication "p1")) 0)
     = Resolved (JObj [("id", JStr "pub1")]).
Proof.
  split.
  - destruct (nested_extraction_is_partial
                (stub (Resolved (JObj nullEnvelope)))
                (CallGetPostPublication "p1") "post" "publication" 0)
      as [_ Hpartial].
    destruct (Hpartial eq_refl) as (r & _ & Hresolved).
    destruct (Hresolved (JObj nullEnvelope) 1 eq_refl eq_refl)
      as (x & _ & Hfield & Hnull & _).
    rewrite (Hfield nullEnvelope eq_refl) in Hnull.
    exact (Hnull eq_refl).
  - destruct (nested_extraction_is_partial
                (stub (Resolved (JObj postEnvelope)))
                (CallGetPostPublication "p1") "post" "publication" 0)
      as [_ Hpartial].
    destruct (Hpartial eq_refl) as (r & _ & Hresolved).
    destruct (Hresolved (JObj postEnvelope) 1 eq_refl eq_refl)
      as (x & _ & Hfield & _ & Hpresent).
    rewrite (Hfield postEnvelope eq_refl) in Hpresent.
    destruct (Hpresent eq_refl) as [[v [Hv Hout]] _].
    injection Hv as <-. exact Hout.
Defined.

(** ** Beyond the happy path: every method, every envelope *)

(** A failed path read is the TypeError of reading one of the path's keys
    on [null] or [undefined]. *)
Lemma readPath_error (path : list string) (v : JsVal) (e : Exn) :
  readPath v path = inl e ->
  exists base key,
    e = PropertyAccessError base key /\ isNullish base = true /\ In key path.
Proof.
  revert v. induction path as [ | key rest IH]; intros v H; simpl in H.
  - discriminate.
  - destruct (readProperty v key) as [e' | x] eqn:Hread.
    + injection H as <-. exists v, key.
      destruct v; simpl in Hread; try discriminate;
        try (injection Hread as <-; repeat split; simpl; auto).
      destruct (ownProperty props key); discriminate.
    + destruct (IH x H) as (base & k & He & Hn & Hin).
      exists base, k. repeat split; simpl; auto.
Qed.


Lemma methodName_injective (m1 m2 : Method) :
  methodName m1 = methodName m2 -> m1 = m2.
Proof.
  destruct m1 as [q1 | u1]; [destruct q1 | destruct u1];
    (destruct m2 as [q2 | u2]; [destruct q2 | destruct u2]);
    simpl; intros H; first [reflexivity | discriminate H].
Qed.

Section Extras.

Context {Document World : Type} {queries : PostQueries Document}.
Variable executor : Request Document -> World -> Outcome JsVal * World.

(** X1.  Every method pairs its own name with the document constant the
    class pairs it with, in every run; and two different methods never
    hand the executor the same request, whatever their arguments. *)
Theorem each_method_passes_its_document (inv : Invocation) (w : World) :
  (exists vars,
     calls (run executor (invoke inv) w)
     = [mkRequest (methodName (methodOf inv)) (documentOf (methodOf inv)) vars])
  /\ forall inv' w',
       methodOf inv <> methodOf inv' ->
       calls (run executor (invoke inv) w) <> calls (run executor (invoke inv') w').
Proof.
  assert (Hr : forall i, exists vars,
            awaited (invoke (Document := Document) i)
            = Some (mkRequest (methodName (methodOf i))
                      (documentOf (methodOf i)) vars)).
  { intros i.
    destruct i as [ | | | | | | | | m input]; [ | | | | | | | | destruct m];
      eexists; reflexivity. }
  assert (Hc : forall i v, exists vars,
            calls (run executor (invoke i) v)
            = [mkRequest (methodName (methodOf i)) (documentOf (methodOf i)) vars]).
  { intros i v. destruct (Hr i) as [vars Hi]. exists vars.
    rewrite (run_invoke executor i _ v Hi).
    destruct (executor _ v) as [[env | e | ] v']; reflexivity. }
  split; [apply Hc | ].
  intros inv' w' Hdiff Heq.
  destruct (Hc inv w) as [vars H1]. destruct (Hc inv' w') as [vars' H2].
  rewrite H1, H2 in Heq. injection Heq as Hname _ _.
  apply Hdiff, methodName_injective, Hname.
Qed.


(** X3.  The eight methods that read one field (getPost,
    getDraftPostQuery, getScheduledPost, getFeedPosts, addPostToSeries,
    updatePost, removePost, likePost) hand over one request, and when the
    executor resolves it with plain decoded data that is neither null nor
    undefined they resolve: a missing field gives [undefined], not an
    error. *)
Theorem flat_methods_resolve_on_any_envelope
    (inv : Invocation) (key : string) (w : World) :
  map methodName (filter (fun m => negb (unwrapsNested m)) allMethods)
    = ["getPost"; "getDraftPostQuery"; "getScheduledPost"; "getFeedPosts";
       "addPostToSeries"; "updatePost"; "removePost"; "likePost"]
  /\ (designatedPath (methodOf inv) = [key] ->
      exists r,
        calls (run executor (invoke inv) w) = [r]
        /\ forall env w',
             executor r w = (Resolved env, w') ->
             isNullish env = false ->
             outcome (run executor (invoke inv) w)
             = Resolved (match env with
                         | JObj props => field props key
                         | _ => JUndefined
                         end)).
Proof.
  split; [reflexivity | ].
  intros Hpath.
  destruct (invoke_awaits (Document := Document) inv) as [r Hr].
  exists r. rewrite (run_invoke executor inv r w Hr), Hpath. split.
  - destruct (executor r w) as [[env | e | ] w']; reflexivity.
  - intros env w' Hex Hn. rewrite Hex.
    destruct env; simpl in Hn; try discriminate; try reflexivity.
    cbn [outcome]. rewrite readPath_object. reflexivity.
Qed.



(** X6.  A method resolves only with a value read out of a resolved
    envelope: if the method's promise resolves with [v], the executor
    resolved with an envelope whose designated path reads as [v].  No
    value is made up locally. *)
Theorem resolved_value_comes_from_envelope
    (inv : Invocation) (v : JsVal) (w : World) :
  outcome (run executor (invoke inv) w) = Resolved v ->
  exists r env,
    awaited (invoke inv) = Some r
    /\ fst (executor r w) = Resolved env
    /\ readPath env (designatedPath (methodOf inv)) = inr v.
Proof.
  intros H.
  destruct (invoke_awaits (Document := Document) inv) as [r Hr].
  rewrite (run_invoke executor inv r w Hr) in H.
  destruct (executor r w) as [[env | e | ] w'] eqn:Hex; simpl in H;
    try discriminate.
  exists r, env. rewrite Hex. repeat split; auto.
  destruct (readPath env (designatedPath (methodOf inv))); simpl in H;
    [discriminate | congruence].
Qed.

(** X7.  With an executor whose replies are plain decoded data, a
    rejection has one of two origins: either the executor rejected with
    that very error, or the executor resolved and the error is the
    TypeError of reading one of the method's fields on [null] or
    [undefined]. *)
Theorem rejection_origin (inv : Invocation) (e : Exn) (w : World) :
  outcome (run executor (invoke inv) w) = Rejected e ->
  exists r,
    awaited (invoke inv) = Some r
    /\ (fst (executor r w) = Rejected e
        \/ exists env base key,
             fst (executor r w) = Resolved env
             /\ e = PropertyAccessError base key
             /\ isNullish base = true
             /\ In key (designatedPath (methodOf inv))).
Proof.
  intros H.
  destruct (invoke_awaits (Document := Document) inv) as [r Hr].
  exists r. split; [exact Hr | ].
  rewrite (run_invoke executor inv r w Hr) in H.
  destruct (executor r w) as [[env | e' | ] w'] eqn:Hex; simpl in H;
    try discriminate.
  - right.
    destruct (readPath env (designatedPath (methodOf inv))) as [e' | x] eqn:Hp;
      simpl in H; [ | discriminate].
    injection H as <-.
    destruct (readPath_error _ _ _ Hp) as (base & key & He & Hn & Hin).
    exists env, base, key. simpl. auto.
  - left. simpl. congruence.
Qed.

(** X8.  The variables object of every request is well formed and reads
    back: its keys are pairwise distinct, and reading any of its keys
    gives the value that was stored under it. *)
Theorem variables_keys_distinct_and_readable (inv : Invocation) (w : World) :
  exists props,
    map variables (calls (run executor (invoke inv) w)) = [JObj props]
    /\ NoDup (map fst props)
    /\ forall k v, In (k, v) props -> readProperty (JObj props) k = inr v.
Proof.
  assert (Hcalls : forall r, awaited (invoke inv) = Some r ->
            map variables (calls (run executor (invoke inv) w)) = [variables r]).
  { intros r Hr. rewrite (run_invoke executor inv r w Hr).
    destruct (executor r w) as [[env | e | ] w']; reflexivity. }
  destruct inv as [ | | | | | | | | m input]; [ | | | | | | | | destruct m];
    rewrite (Hcalls _ eq_refl); simpl; eexists; (split; [reflexivity | ]);
    (split;
     [ repeat (constructor; [simpl; intuition discriminate | ]); constructor
     | intros k v Hin; simpl in Hin;
       repeat (destruct Hin as [Hin | Hin];
               [injection Hin as <- <-; reflexivity | ]);
       contradiction ]).
Qed.

End Extras.

(** ** The further properties on fixtures *)

(** [getPost] and [getScheduledPost] read the same field but never send
    the same request. *)
Lemma different_methods_on_fixture :
  calls (run (stub Pending) (invoke (CallGetPost "p1")) 0)
  <> calls (run (stub Pending) (invoke (CallGetScheduledPost "p1")) 0).
Proof.
  destruct (each_method_passes_its_document (stub Pending) (CallGetPost "p1") 0)
    as [_ Hdiff].
  apply (Hdiff (CallGetScheduledPost "p1") 0). discriminate.
Defined.


(** [getDraftPostQuery] on an envelope without [draft]: [undefined]. *)
Lemma missing_field_on_fixture :
  outcome (run (stub (Resolved (JObj postEnvelope)))
             (invoke (CallGetDraftPostQuery "d1")) 0)
  = Resolved JUndefined.
Proof.
  destruct (flat_methods_resolve_on_any_envelope
              (stub (Resolved (JObj postEnvelope)))
              (CallGetDraftPostQuery "d1") "draft" 0)
    as [_ Hflat].
  destruct (Hflat eq_refl) as (r & _ & Hresolved).
  exact (Hresolved (JObj postEnvelope) 1 eq_refl eq_refl).
Defined.



(** The post [getPost] resolved with was in the envelope. *)
Lemma resolved_value_on_fixture :
  exists r env,
    awaited (invoke (CallGetPost "p1")) = Some r
    /\ fst (stub (Resolved (JObj postEnvelope)) r 0) = Resolved env
    /\ readPath env (designatedPath (methodOf (CallGetPost "p1"))) = inr aPost.
Proof.
  exact (resolved_value_comes_from_envelope (stub (Resolved (JObj postEnvelope)))
           (CallGetPost "p1") aPost 0 eq_refl).
Defined.

(** The TypeError of [getPostPublication] on [{ post: null }] is local. *)
Lemma rejection_origin_on_fixture :
  exists r,
    awaited (invoke (CallGetPostPublication "p1")) = Some r
    /\ (fst (stub (Resolved (JObj nullEnvelope)) r 0)
          = Rejected (PropertyAccessError JNull "publication")
        \/ exists env base key,
             fst (stub (Resolved (JObj nullEnvelope)) r 0) = Resolved env
             /\ PropertyAccessError JNull "publication" = PropertyAccessError base key
             /\ isNullish base = true
             /\ In key (designatedPath (methodOf (CallGetPostPublication "p1")))).
Proof.
  exact (rejection_origin (stub (Resolved (JObj nullEnvelope)))
           (CallGetPostPublication "p1")
           (PropertyAccessError JNull "publication") 0 eq_refl).
Defined.
